(** * InfluxDB annotation migration (public/app/plugins/datasource/influxdb/migrations.ts)

    A shallow embedding of [migrateLegacyAnnotation] and [prepareAnnotation]
    over a small model of the JavaScript values they touch, and the
    properties of the two functions.

    [prepareAnnotation] takes [json : any], assigns to [json.target] and
    returns [json]: the record is a shared, mutable object.  Objects
    therefore live in a store, values refer to them by location, and both
    functions are store-passing computations that may throw. *)

From stdpp Require Import gmap strings list fin_maps.
From Stdlib Require Import ZArith.

Local Open Scope string_scope.

(** ** Values, objects and the store *)

Definition loc := positive.

(** The values of the persisted JSON and of an untyped [any]: numbers are
    the integers of the JSON document ([limit] is one), [VNaN] is the one
    other number that is falsy; objects and arrays are references. *)
Inductive value :=
  | VUndefined
  | VNull
  | VBool (b : bool)
  | VNum (n : Z)
  | VNaN
  | VStr (s : string)
  | VRef (l : loc).

Arguments VNum n%_Z.
Arguments VRef l%_positive.

Global Instance value_eq_dec : EqDecision value.
Proof. solve_decision. Defined.

Inductive class := ClassObject | ClassArray.

Global Instance class_eq_dec : EqDecision class.
Proof. solve_decision. Defined.

(** An object is its class and its own properties.  An array holds its
    elements under the keys "0", "1", ... and its length under "length",
    like any other own property. *)
Record object := Object { cls : class; props : gmap string value }.

Abbreviation heap := (gmap loc object).

(** What a computation can raise: the [TypeError] of JavaScript, and
    [BadAddress] for a reference to a location the store does not hold
    (no JavaScript program can build one). *)
Inductive error := TypeError | BadAddress.

Inductive result (A : Type) :=
  | Ok (a : A)
  | Throw (e : error).
Arguments Ok {A} a.
Arguments Throw {A} e.

(** Store-passing computations that may throw. *)
Definition M (A : Type) : Type := heap → result (A * heap).

Global Instance M_ret : MRet M := λ A a h, Ok (a, h).
Global Instance M_bind : MBind M := λ A B f m h,
  match m h with
  | Ok (a, h') => f a h'
  | Throw e => Throw e
  end.

(** ** The operators of the source *)

(** ToBoolean: the falsy values are undefined, null, false, 0, NaN, "". *)
Definition truthy (v : value) : bool :=
  match v with
  | VUndefined | VNull | VNaN => false
  | VBool b => b
  | VNum n => negb (n =? 0)%Z
  | VStr s => negb (String.eqb s "")
  | VRef _ => true
  end.

Definition nullish (v : value) : bool :=
  match v with
  | VUndefined | VNull => true
  | _ => false
  end.

(** [a ?? b] with a right operand that is a literal. *)
Definition coalesce (a b : value) : value := if nullish a then b else a.

(** The value of own property [k] of [o], [undefined] when [o] has none
    (plain data objects: nothing is inherited under the names read here). *)
Definition field (o : object) (k : string) : value :=
  default VUndefined (props o !! k).

(** [v.k] as a pure read of the store.  Reading a property of undefined or
    null throws; a boolean, number or string has none of the properties
    the source reads ("query", "limit", "matchAny", "tags", "type"). *)
Definition peek (h : heap) (v : value) (k : string) : result value :=
  match v with
  | VUndefined | VNull => Throw TypeError
  | VBool _ | VNum _ | VNaN | VStr _ => Ok VUndefined
  | VRef l =>
      match h !! l with
      | Some o => Ok (field o k)
      | None => Throw BadAddress
      end
  end.

(** [v.k] *)
Definition get (v : value) (k : string) : M value := λ h,
  match peek h v k with
  | Ok x => Ok (x, h)
  | Throw e => Throw e
  end.

(** [v?.k] *)
Definition get_opt (v : value) (k : string) : M value :=
  if nullish v then mret VUndefined else get v k.

(** [v.k = x] in strict mode (the file is an ES module): on an object
    the own property is created or overwritten, on anything else the
    assignment throws.  For an array this is the ordinary case as long as
    [k] is neither "length" nor an index; the source writes "target" only. *)
Definition set (v : value) (k : string) (x : value) : M unit := λ h,
  match v with
  | VRef l =>
      match h !! l with
      | Some o => Ok (tt, <[l := Object (cls o) (<[k := x]> (props o))]> h)
      | None => Throw BadAddress
      end
  | _ => Throw TypeError
  end.

(** A literal [{...}] or [[]]: a new object at a location the store does
    not hold yet. *)
Definition alloc (o : object) : M value := λ h,
  let l := fresh (dom h) in Ok (VRef l, <[l := o]> h).

(** [[]] *)
Definition empty_array : object :=
  Object ClassArray {[ "length" := VNum 0 ]}.

(** ** migrations.ts *)

(** The object literal returned by [migrateLegacyAnnotation], its twelve
    properties in the order of the source. *)
Definition current_fields : list string :=
  [ "query"; "queryType"; "fromAnnotations"; "tagsColumn"; "textColumn";
    "timeEndColumn"; "titleColumn"; "name"; "limit"; "matchAny"; "tags";
    "type" ].

Definition current_record
    (query tagsColumn textColumn timeEndColumn titleColumn name
     limit matchAny tags type : value) : object :=
  Object ClassObject (list_to_map
    [ ("query", query);
      ("queryType", VStr "tags");
      ("fromAnnotations", VBool true);
      ("tagsColumn", tagsColumn);
      ("textColumn", textColumn);
      ("timeEndColumn", timeEndColumn);
      ("titleColumn", titleColumn);
      ("name", name);
      ("limit", limit);
      ("matchAny", matchAny);
      ("tags", tags);
      ("type", type) ]).

(** [json.k ?? ''] *)
Definition flat_field (json : value) (k : string) : M value :=
  v ← get json k; mret (coalesce v (VStr "")).

(** [json.target ? json.target.k : dflt] *)
Definition target_field (json : value) (k : string) (dflt : M value) : M value :=
  c ← get json "target";
  if truthy c then t ← get json "target"; get t k else dflt.

(** [migrateLegacyAnnotation]: the property values are evaluated in the
    order of the literal, then the object is created (it is reachable by
    nobody before the literal is complete). *)
Definition migrateLegacyAnnotation (json : value) : M value :=
  query ← flat_field json "query";
  tagsColumn ← flat_field json "tagsColumn";
  textColumn ← flat_field json "textColumn";
  timeEndColumn ← flat_field json "timeEndColumn";
  titleColumn ← flat_field json "titleColumn";
  name ← flat_field json "name";
  limit ← target_field json "limit" (mret (VNum 0));
  matchAny ← target_field json "matchAny" (mret (VBool false));
  tags ← target_field json "tags" (alloc empty_array);
  type ← target_field json "type" (mret (VStr ""));
  alloc (current_record query tagsColumn textColumn timeEndColumn
           titleColumn name limit matchAny tags type).

(** [json.target && !json.target?.query], as the condition of [?:]: a
    falsy [json.target] is the value of [&&] and selects the else branch. *)
Definition needs_migration (json : value) : M bool :=
  c ← get json "target";
  if truthy c then
    t ← get json "target";
    q ← get_opt t "query";
    mret (negb (truthy q))
  else mret false.

(** [prepareAnnotation] *)
Definition prepareAnnotation (json : value) : M value :=
  b ← needs_migration json;
  v ← (if b : bool then migrateLegacyAnnotation json else get json "target");
  _ ← set json "target" v;
  mret json.

(** ** Reading the store in statements *)

(** [v.k] where it cannot throw: the value read, [undefined] otherwise
    (which is also what [v?.k] gives on undefined and null). *)
Definition read (h : heap) (v : value) (k : string) : value :=
  match peek h v k with
  | Ok x => x
  | Throw _ => VUndefined
  end.

(** A reference points into the store. *)
Definition allocated (h : heap) (v : value) : Prop :=
  match v with
  | VRef l => is_Some (h !! l)
  | _ => True
  end.

(** [json.target] after the call, for a returned [json] and store. *)
Definition target_of (h : heap) (json : value) : value := read h json "target".

(** The object [o] with [o.k = x] done. *)
Definition with_prop (o : object) (k : string) (x : value) : object :=
  Object (cls o) (<[k := x]> (props o)).

(** What [migrateLegacyAnnotation] builds for a record [o] whose target is
    truthy: flat fields from [o], sub-fields from [o.target]. *)
Definition migrated_target (h : heap) (o : object) : object :=
  let t := field o "target" in
  current_record
    (coalesce (field o "query") (VStr ""))
    (coalesce (field o "tagsColumn") (VStr ""))
    (coalesce (field o "textColumn") (VStr ""))
    (coalesce (field o "timeEndColumn") (VStr ""))
    (coalesce (field o "titleColumn") (VStr ""))
    (coalesce (field o "name") (VStr ""))
    (read h t "limit") (read h t "matchAny") (read h t "tags") (read h t "type").

(** What it builds for a record whose target is falsy; [tags] is the new
    empty array. *)
Definition defaulted_target (o : object) (tags : value) : object :=
  current_record
    (coalesce (field o "query") (VStr ""))
    (coalesce (field o "tagsColumn") (VStr ""))
    (coalesce (field o "textColumn") (VStr ""))
    (coalesce (field o "timeEndColumn") (VStr ""))
    (coalesce (field o "titleColumn") (VStr ""))
    (coalesce (field o "name") (VStr ""))
    (VNum 0) (VBool false) tags (VStr "").

(** The condition of [prepareAnnotation] as a function of the record. *)
Definition migrates (h : heap) (o : object) : bool :=
  truthy (field o "target") &&
  negb (truthy (read h (field o "target") "query")).

(** ** The decision rule and the shapes the specification names *)

(** The specification's decision rule, in its words: the target is
    already current if and only if it is present (neither null nor
    undefined) and its nested [query] is truthy. *)
Definition spec_already_current (h : heap) (o : object) : bool :=
  negb (nullish (field o "target")) &&
  truthy (read h (field o "target") "query").

(** The six flat fields and the four target sub-fields. *)
Definition flat_fields : list string :=
  [ "query"; "tagsColumn"; "textColumn"; "timeEndColumn"; "titleColumn"; "name" ].

Definition sub_fields : list string := [ "limit"; "matchAny"; "tags"; "type" ].

(** [json.target] is an object that owns every property of a
    CurrentAnnotationRecord. *)
Definition all_fields_populated (h : heap) (json : value) : Prop :=
  ∃ n r, target_of h json = VRef n ∧ h !! n = Some r ∧
         Forall (λ k, is_Some (props r !! k)) current_fields.

(** [json.target] is the fully defaulted record of a legacy record [o]:
    flat fields of [o] or "", limit 0, matchAny false, tags an empty
    array, type "", queryType "tags", fromAnnotations true. *)
Definition has_defaulted_target (h : heap) (json : value) (o : object) : Prop :=
  ∃ n a, target_of h json = VRef n ∧
         h !! n = Some (defaulted_target o (VRef a)) ∧
         h !! a = Some empty_array.

(** The value [t] has no own property [k]: it is a boolean, a number or a
    string, or an object without it. *)
Definition lacks (h : heap) (t : value) (k : string) : Prop :=
  match t with
  | VRef a => ∃ ot, h !! a = Some ot ∧ props ot !! k = None
  | _ => True
  end.

(** ** The scenarios of the specification, as stores *)

Definition obj (l : list (string * value)) : object :=
  Object ClassObject (list_to_map l).

Definition arr (l : list (string * value)) : object :=
  Object ClassArray (list_to_map l).

(** Scenario A: [{ query: "foo", tagsColumn: "t" }] *)
Definition recordA : object := obj [("query", VStr "foo"); ("tagsColumn", VStr "t")].
Definition scenarioA : heap := {[ 1%positive := recordA ]}.

(** Scenario B: [{ target: { query: "host=$host" } }] *)
Definition recordB : object := obj [("target", VRef 2)].
Definition scenarioB : heap :=
  {[ 1%positive := recordB; 2%positive := obj [("query", VStr "host=$host")] ]}.

(** Scenario C:
    [{ name: "n1", target: { limit: 5, matchAny: true, tags: ["a","b"], type: "tags" } }] *)
Definition recordC : object := obj [("name", VStr "n1"); ("target", VRef 2)].
Definition scenarioC : heap :=
  {[ 1%positive := recordC;
     2%positive := obj [("limit", VNum 5); ("matchAny", VBool true);
                        ("tags", VRef 3); ("type", VStr "tags")];
     3%positive := arr [("0", VStr "a"); ("1", VStr "b"); ("length", VNum 2)] ]}.

(** Scenario D: [{}] *)
Definition recordD : object := obj [].
Definition scenarioD : heap := {[ 1%positive := recordD ]}.

(** A legacy record that carries its own [queryType] and
    [fromAnnotations], and a target with one sub-field only:
    [{ queryType: "measurements", fromAnnotations: false, target: { type: "tags" } }] *)
Definition recordE : object :=
  obj [("queryType", VStr "measurements"); ("fromAnnotations", VBool false);
       ("target", VRef 2)].
Definition scenarioE : heap :=
  {[ 1%positive := recordE; 2%positive := obj [("type", VStr "tags")] ]}.

(** A truthy target that is not an object: [{ target: "legacy" }] *)
Definition recordF : object := obj [("target", VStr "legacy")].
Definition scenarioF : heap := {[ 1%positive := recordF ]}.

(** A null target: [{ query: "foo", target: null }] *)
Definition recordN : object := obj [("query", VStr "foo"); ("target", VNull)].
Definition scenarioN : heap := {[ 1%positive := recordN ]}.

(** A target with no property at all: [{ target: {} }] *)
Definition recordG : object := obj [("target", VRef 2)].
Definition scenarioG : heap := {[ 1%positive := recordG; 2%positive := obj [] ]}.

(** ** Well-formed stores and inputs *)

(** The input is an object (or an array): a reference. *)
Definition is_object (v : value) : bool :=
  match v with
  | VRef _ => true
  | _ => false
  end.

(** Every reference held in a property of an object of the store points
    into the store, as in any JavaScript heap. *)
Definition closed (h : heap) : Prop :=
  map_Forall (λ _ o, map_Forall (λ _ v, allocated h v) (props o)) h.

Global Instance allocated_dec (h : heap) (v : value) : Decision (allocated h v).
Proof. destruct v; simpl; apply _. Defined.

Global Instance closed_dec (h : heap) : Decision (closed h).
Proof. unfold closed. apply _. Defined.

(** ** DrilldownSettings.tsx *)

(** What the component lives on: [dashboard.drilldownHierarchy.list],
    which [onNew] replaces by a longer array, and the [editIdx] of
    [useState<number | null>(null)]. *)
Record settings := Settings { hierarchy : list object; editIdx : option Z }.

(** The first render: [useState(null)]. *)
Definition mount (dimensions : list object) : settings := Settings dimensions None.

(** [onGoBack] *)
Definition onGoBack (s : settings) : settings := Settings (hierarchy s) None.

(** [onNew].  [newDimensionName] is imported from '../DrilldownSettings',
    which is not among the sources: it is a parameter.  The new entry is
    [{ ...newDimension }], an object with the one property [name]. *)
Definition onNew (newDimensionName : value) (s : settings) : settings :=
  let newDimension := obj [("name", newDimensionName)] in
  let list := (hierarchy s ++ [newDimension])%list in
  Settings list (Some (Z.of_nat (length list) - 1)%Z).

(** [onEdit] *)
Definition onEdit (idx : Z) (s : settings) : settings :=
  Settings (hierarchy s) (Some idx).

(** [editIdx !== null] *)
Definition isEditing (s : settings) : bool :=
  match editIdx s with
  | Some _ => true
  | None => false
  end.

(** The elements the component returns, with the props that carry state
    (the callbacks are the three handlers above). *)
Inductive element :=
  | DashboardSettingsHeader (title : string) (isEditing : bool)
  | DrilldownSettingsList (dashboard : list object)
  | DrilldownSettingsEdit (dashboard : list object) (editIdx : option Z).

(** The fragment returned by [DrilldownSettings]: [false && <...>] renders
    nothing, and [editIdx!] passes [editIdx] as it is. *)
Definition DrilldownSettings (s : settings) : list element :=
  ([DashboardSettingsHeader "Drilldown settings" (isEditing s)]
   ++ (if negb (isEditing s) then [DrilldownSettingsList (hierarchy s)] else [])
   ++ (if isEditing s then [DrilldownSettingsEdit (hierarchy s) (editIdx s)] else []))%list.

(** The calls the children can make, and a sequence of them. *)
Inductive event := New | GoBack | Edit (idx : Z).

Global Instance event_eq_dec : EqDecision event.
Proof. solve_decision. Defined.

Definition handle (name : value) (e : event) (s : settings) : settings :=
  match e with
  | New => onNew name s
  | GoBack => onGoBack s
  | Edit idx => onEdit idx s
  end.

Definition run (name : value) (es : list event) (s : settings) : settings :=
  foldl (λ s e, handle name e s) s es.

(** [editIdx] is null or the index of an entry of the list. *)
Definition editIdx_in_range (s : settings) : Prop :=
  match editIdx s with
  | Some i => (0 ≤ i < Z.of_nat (length (hierarchy s)))%Z
  | None => True
  end.

(** Every [onEdit] of the sequence is called with the index of an entry
    of the list as it is at that moment (the list view offers no other). *)
Fixpoint edits_in_range (name : value) (es : list event) (s : settings) : Prop :=
  match es with
  | [] => True
  | e :: es' =>
      match e with
      | Edit idx => (0 ≤ idx < Z.of_nat (length (hierarchy s)))%Z
      | _ => True
      end ∧ edits_in_range name es' (handle name e s)
  end.

(** The number of [onNew] calls of a sequence. *)
Definition news (es : list event) : nat :=
  length (filter (λ e, e = New) es).

(** ** Stepping through the computations *)

Section steps.
Context {A B : Type}.

Lemma bind_unfold (m : M A) (f : A → M B) (h : heap) :
  (m ≫= f) h =
  match m h with
  | Ok (a, h') => f a h'
  | Throw e => Throw e
  end.
Proof. reflexivity. Qed.

Lemma bind_Ok (m : M A) (f : A → M B) (h h' : heap) (a : A) :
  m h = Ok (a, h') → (m ≫= f) h = f a h'.
Proof. intros Hm. rewrite bind_unfold, Hm. reflexivity. Qed.

Lemma ret_unfold (a : A) (h : heap) : (mret a : M A) h = Ok (a, h).
Proof. reflexivity. Qed.
End steps.

Lemma get_field (h : heap) (l : loc) (o : object) (k : string) :
  h !! l = Some o → get (VRef l) k h = Ok (field o k, h).
Proof. intros Hl. unfold get, peek. rewrite Hl. reflexivity. Qed.

Lemma truthy_not_nullish (v : value) : truthy v = true → nullish v = false.
Proof. destruct v; simpl; congruence. Qed.

Lemma get_read (h : heap) (v : value) (k : string) :
  nullish v = false → allocated h v → get v k h = Ok (read h v k, h).
Proof.
  unfold get, read, peek.
  destruct v as [| | b | n | | s | l]; simpl; try discriminate; try reflexivity.
  intros _ [o Ho]. rewrite Ho. reflexivity.
Qed.

Lemma get_opt_read (h : heap) (v : value) (k : string) :
  allocated h v → get_opt v k h = Ok (read h v k, h).
Proof.
  intros Hv. unfold get_opt. destruct (nullish v) eqn:Hn.
  - destruct v; try discriminate; reflexivity.
  - apply get_read; assumption.
Qed.

Lemma flat_field_eq (h : heap) (l : loc) (o : object) (k : string) :
  h !! l = Some o →
  flat_field (VRef l) k h = Ok (coalesce (field o k) (VStr ""), h).
Proof.
  intros Hl. unfold flat_field.
  rewrite (bind_Ok _ _ _ _ _ (get_field h l o k Hl)). reflexivity.
Qed.

Lemma target_field_truthy (h : heap) (l : loc) (o : object) (k : string) (d : M value) :
  h !! l = Some o → truthy (field o "target") = true →
  allocated h (field o "target") →
  target_field (VRef l) k d h = Ok (read h (field o "target") k, h).
Proof.
  intros Hl Ht Ha. unfold target_field.
  rewrite (bind_Ok _ _ _ _ _ (get_field h l o "target" Hl)), Ht.
  rewrite (bind_Ok _ _ _ _ _ (get_field h l o "target" Hl)).
  apply get_read; [by apply truthy_not_nullish | done].
Qed.

Lemma target_field_falsy (h : heap) (l : loc) (o : object) (k : string) (d : M value) :
  h !! l = Some o → truthy (field o "target") = false →
  target_field (VRef l) k d h = d h.
Proof.
  intros Hl Ht. unfold target_field.
  rewrite (bind_Ok _ _ _ _ _ (get_field h l o "target" Hl)), Ht. reflexivity.
Qed.

Lemma fresh_not_allocated (h : heap) : h !! fresh (dom h) = None.
Proof. apply not_elem_of_dom, is_fresh. Qed.

Lemma allocated_ne_fresh (h : heap) (l : loc) (o : object) :
  h !! l = Some o → l ≠ fresh (dom h).
Proof. intros Hl ->. rewrite fresh_not_allocated in Hl. discriminate. Qed.

Lemma lookup_after_alloc (h : heap) (l : loc) (o o' : object) :
  h !! l = Some o → <[fresh (dom h) := o']> h !! l = Some o.
Proof.
  intros Hl. rewrite lookup_insert_ne; [done|].
  intros E. by apply (allocated_ne_fresh h l o).
Qed.

(** ** What the two functions compute *)

Lemma needs_migration_eq (h : heap) (l : loc) (o : object) :
  h !! l = Some o → allocated h (field o "target") →
  needs_migration (VRef l) h = Ok (migrates h o, h).
Proof.
  intros Hl Ha. unfold needs_migration, migrates.
  rewrite (bind_Ok _ _ _ _ _ (get_field h l o "target" Hl)).
  destruct (truthy (field o "target")) eqn:Ht; [|reflexivity].
  rewrite (bind_Ok _ _ _ _ _ (get_field h l o "target" Hl)).
  rewrite (bind_Ok _ _ _ _ _ (get_opt_read h _ "query" Ha)).
  reflexivity.
Qed.

Lemma migrate_truthy (h : heap) (l : loc) (o : object) :
  h !! l = Some o → truthy (field o "target") = true →
  allocated h (field o "target") →
  migrateLegacyAnnotation (VRef l) h =
  Ok (VRef (fresh (dom h)), <[fresh (dom h) := migrated_target h o]> h).
Proof.
  intros Hl Ht Ha. unfold migrateLegacyAnnotation.
  do 6 (erewrite bind_Ok; [|by apply flat_field_eq]).
  do 4 (erewrite bind_Ok; [|by apply target_field_truthy]).
  reflexivity.
Qed.

Lemma migrate_falsy (h : heap) (l : loc) (o : object) :
  h !! l = Some o → truthy (field o "target") = false →
  let a := fresh (dom h) in
  let h1 := <[a := empty_array]> h in
  migrateLegacyAnnotation (VRef l) h =
  Ok (VRef (fresh (dom h1)), <[fresh (dom h1) := defaulted_target o (VRef a)]> h1).
Proof.
  intros Hl Ht a h1. unfold migrateLegacyAnnotation.
  do 6 (erewrite bind_Ok; [|by apply flat_field_eq]).
  do 2 (erewrite bind_Ok; [|by rewrite (target_field_falsy _ _ _ _ _ Hl Ht)]).
  erewrite bind_Ok; [|by rewrite (target_field_falsy _ _ _ _ _ Hl Ht)].
  assert (Hl1 : h1 !! l = Some o) by by apply lookup_after_alloc.
  fold a. fold h1.
  erewrite bind_Ok; [|by rewrite (target_field_falsy _ _ _ _ _ Hl1 Ht)].
  reflexivity.
Qed.

Lemma set_prop (h : heap) (l : loc) (o : object) (k : string) (x : value) :
  h !! l = Some o →
  set (VRef l) k x h = Ok (tt, <[l := with_prop o k x]> h).
Proof. intros Hl. unfold set. rewrite Hl. reflexivity. Qed.

(** Migration runs: the target becomes the new object. *)
Lemma prepare_migrates (h : heap) (l : loc) (o : object) :
  h !! l = Some o → allocated h (field o "target") →
  migrates h o = true →
  let n := fresh (dom h) in
  prepareAnnotation (VRef l) h =
  Ok (VRef l,
      <[l := with_prop o "target" (VRef n)]> (<[n := migrated_target h o]> h)).
Proof.
  intros Hl Ha Hm n. unfold prepareAnnotation.
  rewrite (bind_Ok _ _ _ _ _ (needs_migration_eq h l o Hl Ha)), Hm.
  apply andb_prop in Hm as [Ht _].
  rewrite (bind_Ok _ _ _ _ _ (migrate_truthy h l o Hl Ht Ha)).
  fold n. erewrite bind_Ok; [|apply set_prop, lookup_after_alloc, Hl].
  reflexivity.
Qed.

(** Migration does not run: [json.target = json.target]. *)
Lemma prepare_keeps (h : heap) (l : loc) (o : object) :
  h !! l = Some o → allocated h (field o "target") →
  migrates h o = false →
  prepareAnnotation (VRef l) h =
  Ok (VRef l, <[l := with_prop o "target" (field o "target")]> h).
Proof.
  intros Hl Ha Hm. unfold prepareAnnotation.
  rewrite (bind_Ok _ _ _ _ _ (needs_migration_eq h l o Hl Ha)), Hm.
  rewrite (bind_Ok _ _ _ _ _ (get_field h l o "target" Hl)).
  erewrite bind_Ok; [|apply set_prop, Hl].
  reflexivity.
Qed.

(** ** Reading the results *)

Lemma current_record_fields (q tc xc ec ic nm li ma tg ty : value) :
  let r := current_record q tc xc ec ic nm li ma tg ty in
  field r "query" = q ∧ field r "queryType" = VStr "tags" ∧
  field r "fromAnnotations" = VBool true ∧ field r "tagsColumn" = tc ∧
  field r "textColumn" = xc ∧ field r "timeEndColumn" = ec ∧
  field r "titleColumn" = ic ∧ field r "name" = nm ∧
  field r "limit" = li ∧ field r "matchAny" = ma ∧
  field r "tags" = tg ∧ field r "type" = ty.
Proof. repeat split; reflexivity. Qed.

Lemma current_record_populated (q tc xc ec ic nm li ma tg ty : value) :
  Forall (λ k, is_Some (props (current_record q tc xc ec ic nm li ma tg ty) !! k))
         current_fields.
Proof. repeat constructor; eexists; reflexivity. Qed.

Lemma target_of_written (h : heap) (l : loc) (o : object) (v : value) :
  target_of (<[l := with_prop o "target" v]> h) (VRef l) = v.
Proof.
  unfold target_of, read, peek. rewrite lookup_insert_eq.
  unfold field, with_prop; simpl. rewrite lookup_insert_eq. reflexivity.
Qed.

Lemma with_prop_other (o : object) (k k' : string) (v : value) :
  k' ≠ k → props (with_prop o k v) !! k' = props o !! k'.
Proof. intros Hk. unfold with_prop; simpl. by rewrite lookup_insert_ne. Qed.

Lemma with_prop_same (o : object) (k : string) (v : value) :
  props o !! k = Some v → with_prop o k v = o.
Proof.
  intros Hk. destruct o as [c p]; unfold with_prop; simpl in *.
  by rewrite insert_id.
Qed.

Lemma coalesce_absent (o : object) (k : string) :
  props o !! k = None → coalesce (field o k) (VStr "") = VStr "".
Proof. intros Hk. unfold field. rewrite Hk. reflexivity. Qed.

Lemma read_lacks (h : heap) (t : value) (k : string) :
  lacks h t k → read h t k = VUndefined.
Proof.
  unfold lacks, read, peek, field. destruct t; try reflexivity.
  intros (ot & -> & ->). reflexivity.
Qed.

(** The record of a migration, once in the store: where it is and what
    its fields are. *)
Lemma migrated_lookup (h : heap) (l : loc) (o : object) :
  h !! l = Some o →
  let n := fresh (dom h) in
  (<[l := with_prop o "target" (VRef n)]> (<[n := migrated_target h o]> h)) !! n
  = Some (migrated_target h o).
Proof.
  intros Hl n. rewrite lookup_insert_ne; [apply lookup_insert_eq|].
  by apply (allocated_ne_fresh h l o).
Qed.

(** ** The decision rule *)

(** C1, as stated, fails: with no target ([{}]) and with a null target the
    specification's rule asks for a migration, while [prepareAnnotation]
    takes the else branch, builds nothing and leaves [target] undefined,
    respectively null. *)
Lemma absent_or_null_target_is_not_migrated :
  (spec_already_current scenarioD recordD = false ∧
   needs_migration (VRef 1) scenarioD = Ok (false, scenarioD) ∧
   ∃ h', prepareAnnotation (VRef 1) scenarioD = Ok (VRef 1, h') ∧
         target_of h' (VRef 1) = VUndefined ∧ dom h' = dom scenarioD) ∧
  (spec_already_current scenarioN recordN = false ∧
   needs_migration (VRef 1) scenarioN = Ok (false, scenarioN) ∧
   ∃ h', prepareAnnotation (VRef 1) scenarioN = Ok (VRef 1, h') ∧
         target_of h' (VRef 1) = VNull ∧ dom h' = dom scenarioN).
Proof.
  split; (split; [reflexivity|]; split; [reflexivity|]);
    (eexists; split; [reflexivity|]; split; vm_compute; reflexivity).
Qed.

(** C1, amended: [prepareAnnotation] migrates if and only if [json.target]
    is truthy and [json.target.query] is falsy.  Then [target] becomes a
    new object, the record built by [migrateLegacyAnnotation]; in every
    other case (target absent, null or otherwise falsy, or query truthy)
    [target] is assigned the value it had. *)
Theorem prepareAnnotation_decision (h : heap) (l : loc) (o : object) :
  h !! l = Some o → allocated h (field o "target") →
  let t := field o "target" in
  let q := read h t "query" in
  needs_migration (VRef l) h = Ok (truthy t && negb (truthy q), h) ∧
  (truthy t = true ∧ truthy q = false →
   ∃ n, h !! n = None ∧
        prepareAnnotation (VRef l) h =
        Ok (VRef l, <[l := with_prop o "target" (VRef n)]>
                      (<[n := migrated_target h o]> h))) ∧
  (¬ (truthy t = true ∧ truthy q = false) →
   prepareAnnotation (VRef l) h = Ok (VRef l, <[l := with_prop o "target" t]> h)).
Proof.
  intros Hl Ha t q. split; [exact (needs_migration_eq h l o Hl Ha)|]. split.
  - intros [Ht Hq]. exists (fresh (dom h)). split; [apply fresh_not_allocated|].
    apply prepare_migrates; try assumption.
    unfold migrates. fold t q. by rewrite Ht, Hq.
  - intros Hn. apply prepare_keeps; try assumption.
    unfold migrates. fold t q.
    destruct (truthy t), (truthy q); try reflexivity. destruct Hn; done.
Qed.

Lemma prepareAnnotation_decision_witness :
  ∃ n, scenarioC !! n = None ∧
       prepareAnnotation (VRef 1) scenarioC =
       Ok (VRef 1, <[1%positive := with_prop recordC "target" (VRef n)]>
                     (<[n := migrated_target scenarioC recordC]> scenarioC)).
Proof.
  assert (H1 : scenarioC !! 1%positive = Some recordC) by reflexivity.
  assert (H2 : allocated scenarioC (field recordC "target"))
    by (vm_compute; eexists; reflexivity).
  destruct (prepareAnnotation_decision scenarioC 1%positive recordC H1 H2) as (_ & H & _).
  apply H. split; reflexivity.
Defined.

(** ** Absent and null targets *)

(** C2, as stated, fails: on Scenario A ([{ query: "foo", tagsColumn: "t" }])
    the returned record has no defaulted target; its [target] is undefined
    and no object was built. *)
Lemma scenarioA_target_stays_undefined :
  nullish (field recordA "target") = true ∧
  ∃ h', prepareAnnotation (VRef 1) scenarioA = Ok (VRef 1, h') ∧
        target_of h' (VRef 1) = VUndefined ∧
        dom h' = dom scenarioA ∧
        ¬ has_defaulted_target h' (VRef 1) recordA.
Proof.
  split; [reflexivity|].
  exists (<[1%positive := with_prop recordA "target" (field recordA "target")]> scenarioA).
  split; [apply prepare_keeps; [reflexivity | vm_compute; exact I | reflexivity]|].
  assert (Ht : target_of (<[1%positive := with_prop recordA "target" (field recordA "target")]> scenarioA) (VRef 1) = VUndefined)
    by apply target_of_written.
  split; [exact Ht|]. split; [vm_compute; reflexivity|].
  intros (n & a & Hn & _). rewrite Ht in Hn. discriminate.
Qed.

(** C2, amended: for a record whose target is absent or null
    [prepareAnnotation] does not migrate: the returned record's [target]
    is what it was (undefined, null) and the store holds no new object.
    The fully defaulted record (flat fields of the record or "", limit 0,
    matchAny false, tags a new empty array, type "", queryType "tags",
    fromAnnotations true) is what [migrateLegacyAnnotation] builds for
    such a record when it is called on it. *)
Theorem nullish_target_kept_and_defaults_of_migrate (h : heap) (l : loc) (o : object) :
  h !! l = Some o → nullish (field o "target") = true →
  (∃ h', prepareAnnotation (VRef l) h = Ok (VRef l, h') ∧
         target_of h' (VRef l) = field o "target" ∧
         dom h' = dom h) ∧
  (∃ n a h', migrateLegacyAnnotation (VRef l) h = Ok (VRef n, h') ∧
             h !! n = None ∧ h !! a = None ∧
             h' !! n = Some (current_record
                               (coalesce (field o "query") (VStr ""))
                               (coalesce (field o "tagsColumn") (VStr ""))
                               (coalesce (field o "textColumn") (VStr ""))
                               (coalesce (field o "timeEndColumn") (VStr ""))
                               (coalesce (field o "titleColumn") (VStr ""))
                               (coalesce (field o "name") (VStr ""))
                               (VNum 0) (VBool false) (VRef a) (VStr "")) ∧
             h' !! a = Some empty_array).
Proof.
  intros Hl Hn.
  assert (Ht : truthy (field o "target") = false)
    by (destruct (field o "target"); try discriminate; reflexivity).
  assert (Ha : allocated h (field o "target"))
    by (destruct (field o "target"); try discriminate; exact I).
  split.
  - assert (Hm : migrates h o = false) by (unfold migrates; by rewrite Ht).
    eexists. split; [exact (prepare_keeps h l o Hl Ha Hm)|].
    split; [apply target_of_written|].
    apply dom_insert_lookup_L. by exists o.
  - pose proof (migrate_falsy h l o Hl Ht) as Hm. simpl in Hm.
    set (a := fresh (dom h)) in *.
    set (h1 := <[a := empty_array]> h) in *.
    exists (fresh (dom h1)), a. eexists. split; [exact Hm|].
    assert (Hfa : h !! a = None) by apply fresh_not_allocated.
    assert (Hfn : h1 !! fresh (dom h1) = None) by apply fresh_not_allocated.
    assert (Hne : fresh (dom h1) ≠ a).
    { intros E. rewrite E in Hfn. unfold h1 in Hfn.
      rewrite lookup_insert_eq in Hfn. discriminate. }
    split; [|split; [exact Hfa|split]].
    + unfold h1 in Hfn. rewrite lookup_insert_ne in Hfn by done. exact Hfn.
    + rewrite lookup_insert_eq. reflexivity.
    + rewrite lookup_insert_ne by done. unfold h1. apply lookup_insert_eq.
Qed.

Lemma nullish_target_kept_and_defaults_of_migrate_witness :
  ∃ h', prepareAnnotation (VRef 1) scenarioN = Ok (VRef 1, h') ∧
        target_of h' (VRef 1) = field recordN "target" ∧
        dom h' = dom scenarioN.
Proof.
  assert (H1 : scenarioN !! 1%positive = Some recordN) by reflexivity.
  assert (H2 : nullish (field recordN "target") = true) by reflexivity.
  exact (proj1 (nullish_target_kept_and_defaults_of_migrate scenarioN 1%positive recordN H1 H2)).
Defined.

(** ** The shape of the returned target *)

Lemma coalesce_not_nullish (v : value) : nullish (coalesce v (VStr "")) = false.
Proof. unfold coalesce. destruct (nullish v) eqn:E; [reflexivity | exact E]. Qed.

Lemma migrated_flat_fields (h : heap) (o : object) :
  Forall (λ k, field (migrated_target h o) k = coalesce (field o k) (VStr ""))
         flat_fields.
Proof. repeat constructor. Qed.

Lemma migrated_sub_fields (h : heap) (o : object) :
  Forall (λ k, field (migrated_target h o) k = read h (field o "target") k)
         sub_fields.
Proof. repeat constructor. Qed.

(** Migration ran: the new target, where it is and that it is new. *)
Lemma prepare_migrates_target (h : heap) (l : loc) (o : object) :
  h !! l = Some o → allocated h (field o "target") →
  truthy (field o "target") = true →
  truthy (read h (field o "target") "query") = false →
  ∃ h' n, prepareAnnotation (VRef l) h = Ok (VRef l, h') ∧
          h !! n = None ∧ target_of h' (VRef l) = VRef n ∧
          h' !! n = Some (migrated_target h o).
Proof.
  intros Hl Ha Ht Hq.
  assert (Hm : migrates h o = true) by (unfold migrates; by rewrite Ht, Hq).
  eexists. exists (fresh (dom h)).
  split; [exact (prepare_migrates h l o Hl Ha Hm)|].
  split; [apply fresh_not_allocated|].
  split; [apply target_of_written | by apply migrated_lookup].
Qed.

(** C3, as stated, fails: on Scenario B the target comes back as given,
    an object with [query] only, and on [{}] there is no target at all. *)
Lemma returned_target_not_always_populated :
  (∃ h', prepareAnnotation (VRef 1) scenarioB = Ok (VRef 1, h') ∧
         ¬ all_fields_populated h' (VRef 1)) ∧
  (∃ h', prepareAnnotation (VRef 1) scenarioD = Ok (VRef 1, h') ∧
         ¬ all_fields_populated h' (VRef 1)).
Proof.
  split.
  - exists (<[1%positive := with_prop recordB "target" (field recordB "target")]> scenarioB).
    split; [apply prepare_keeps; [reflexivity | vm_compute; eexists; reflexivity | reflexivity]|].
    intros (n & r & Hn & Hr & Hall).
    rewrite target_of_written in Hn. injection Hn as <-.
    vm_compute in Hr. injection Hr as <-.
    apply Forall_cons in Hall as [_ Hall].
    apply Forall_cons in Hall as [[x Hx] _].
    vm_compute in Hx. discriminate.
  - exists (<[1%positive := with_prop recordD "target" (field recordD "target")]> scenarioD).
    split; [apply prepare_keeps; [reflexivity | vm_compute; exact I | reflexivity]|].
    intros (n & r & Hn & _).
    rewrite target_of_written in Hn. discriminate.
Qed.

Lemma migrates_true_iff (h : heap) (o : object) :
  migrates h o = true ↔
  truthy (field o "target") = true ∧
  truthy (read h (field o "target") "query") = false.
Proof.
  unfold migrates. rewrite andb_true_iff, negb_true_iff. reflexivity.
Qed.

Lemma field_with_own_target (o : object) (k : string) :
  field (with_prop o "target" (field o "target")) k = field o k.
Proof.
  unfold with_prop. unfold field at 1; simpl.
  destruct (decide ("target" = k)) as [<-|Hne].
  - by rewrite lookup_insert_eq.
  - by rewrite lookup_insert_ne.
Qed.

(** Migration did not run: the target is the value it was, nothing was
    built, and every read of the store gives what it gave before. *)
Lemma prepare_keeps_target (h : heap) (l : loc) (o : object) :
  h !! l = Some o → allocated h (field o "target") →
  migrates h o = false →
  ∃ h', prepareAnnotation (VRef l) h = Ok (VRef l, h') ∧
        is_Some (h' !! l) ∧
        target_of h' (VRef l) = field o "target" ∧
        dom h' = dom h ∧
        ∀ v k, read h' v k = read h v k.
Proof.
  intros Hl Ha Hm. eexists. split; [exact (prepare_keeps h l o Hl Ha Hm)|].
  split; [rewrite lookup_insert_eq; by eexists|].
  split; [apply target_of_written|].
  split; [apply dom_insert_lookup_L; by exists o|].
  intros v k. unfold read, peek. destruct v as [| | | | | |a]; try reflexivity.
  destruct (decide (l = a)) as [<-|Hne].
  - by rewrite lookup_insert_eq, Hl, field_with_own_target.
  - by rewrite lookup_insert_ne.
Qed.

(** C3, amended: whenever migration runs (target truthy, its query falsy)
    the returned target is a new object that owns all twelve properties
    of a CurrentAnnotationRecord; each flat field is neither null nor
    undefined, and is "" where the legacy record had none; the four
    sub-fields hold what the old target gave, which may be undefined.
    When migration does not run the target is returned as it was given:
    the same value, with the properties it had. *)
Theorem migrated_target_fully_populated (h : heap) (l : loc) (o : object) :
  h !! l = Some o → allocated h (field o "target") →
  let t := field o "target" in
  ∃ h', prepareAnnotation (VRef l) h = Ok (VRef l, h') ∧
        (truthy t = true ∧ truthy (read h t "query") = false →
         ∃ n r, h !! n = None ∧ target_of h' (VRef l) = VRef n ∧
                h' !! n = Some r ∧
                all_fields_populated h' (VRef l) ∧
                Forall (λ k, nullish (field r k) = false ∧
                             (props o !! k = None → field r k = VStr ""))
                       flat_fields ∧
                Forall (λ k, field r k = read h t k) sub_fields) ∧
        (¬ (truthy t = true ∧ truthy (read h t "query") = false) →
         target_of h' (VRef l) = t ∧ ∀ k, read h' t k = read h t k).
Proof.
  intros Hl Ha t. destruct (migrates h o) eqn:Hm.
  - pose proof Hm as Hm'. apply migrates_true_iff in Hm' as [Ht Hq].
    destruct (prepare_migrates_target h l o Hl Ha Ht Hq)
      as (h' & n & Hp & Hn & Ht' & Hr).
    exists h'. split; [exact Hp|]. split; [|intros Hno; destruct Hno; by split].
    intros _. exists n, (migrated_target h o). repeat (split; [assumption|]).
    split; [|split].
    + exists n, (migrated_target h o). repeat (split; [assumption|]).
      unfold migrated_target. apply current_record_populated.
    + eapply Forall_impl; [apply migrated_flat_fields|].
      intros k Hk; simpl in Hk. rewrite Hk. split; [apply coalesce_not_nullish|].
      apply coalesce_absent.
    + apply migrated_sub_fields.
  - destruct (prepare_keeps_target h l o Hl Ha Hm) as (h' & Hp & _ & Ht' & _ & Hr).
    exists h'. split; [exact Hp|]. split.
    + intros Hyes. apply migrates_true_iff in Hyes. congruence.
    + intros _. split; [exact Ht'|]. intros k. apply Hr.
Qed.

Lemma migrated_target_fully_populated_witness :
  (∃ h' n r, prepareAnnotation (VRef 1) scenarioE = Ok (VRef 1, h') ∧
             target_of h' (VRef 1) = VRef n ∧ h' !! n = Some r ∧
             all_fields_populated h' (VRef 1) ∧
             Forall (λ k, field r k = read scenarioE (VRef 2) k) sub_fields) ∧
  (∃ h', prepareAnnotation (VRef 1) scenarioB = Ok (VRef 1, h') ∧
         target_of h' (VRef 1) = VRef 2 ∧
         ∀ k, read h' (VRef 2) k = read scenarioB (VRef 2) k).
Proof.
  split.
  - assert (H1 : scenarioE !! 1%positive = Some recordE) by reflexivity.
    assert (H2 : allocated scenarioE (field recordE "target"))
      by (vm_compute; eexists; reflexivity).
    destruct (migrated_target_fully_populated scenarioE 1%positive recordE H1 H2)
      as (h' & Hp & Hyes & _).
    destruct Hyes as (n & r & _ & Ht & Hr & Hall & _ & Hs);
      [split; reflexivity|].
    exists h', n, r. repeat (split; [assumption|]). exact Hs.
  - assert (H1 : scenarioB !! 1%positive = Some recordB) by reflexivity.
    assert (H2 : allocated scenarioB (field recordB "target"))
      by (vm_compute; eexists; reflexivity).
    destruct (migrated_target_fully_populated scenarioB 1%positive recordB H1 H2)
      as (h' & Hp & _ & Hno).
    destruct Hno as [Ht Hr]; [intros [_ Hq]; discriminate Hq|].
    exists h'. repeat (split; [assumption|]). exact Hr.
Defined.

(** ** Migration of a record that has a target *)

(** C4: when the target is truthy and its query falsy, migration runs; in
    the new target [limit], [matchAny], [tags] and [type] are the values
    read from the old target, and the six flat fields are those of the
    record itself, "" for a field the record does not have. *)
Theorem migration_reads_sub_fields_from_target (h : heap) (l : loc) (o : object) :
  h !! l = Some o → allocated h (field o "target") →
  truthy (field o "target") = true →
  truthy (read h (field o "target") "query") = false →
  ∃ h' n r, prepareAnnotation (VRef l) h = Ok (VRef l, h') ∧
            h !! n = None ∧ target_of h' (VRef l) = VRef n ∧
            h' !! n = Some r ∧
            Forall (λ k, field r k = read h (field o "target") k) sub_fields ∧
            Forall (λ k, field r k = coalesce (field o k) (VStr "") ∧
                         (props o !! k = None → field r k = VStr ""))
                   flat_fields.
Proof.
  intros Hl Ha Ht Hq.
  destruct (prepare_migrates_target h l o Hl Ha Ht Hq) as (h' & n & Hp & Hn & Ht' & Hr).
  exists h', n, (migrated_target h o). repeat (split; [assumption|]). split.
  - apply migrated_sub_fields.
  - eapply Forall_impl; [apply migrated_flat_fields|].
    intros k Hk; simpl in Hk. split; [exact Hk|].
    intros Hnone. rewrite Hk. by apply coalesce_absent.
Qed.

Lemma migration_reads_sub_fields_from_target_witness :
  ∃ h' n r, prepareAnnotation (VRef 1) scenarioC = Ok (VRef 1, h') ∧
            target_of h' (VRef 1) = VRef n ∧ h' !! n = Some r ∧
            Forall (λ k, field r k = read scenarioC (VRef 2) k) sub_fields.
Proof.
  assert (H1 : scenarioC !! 1%positive = Some recordC) by reflexivity.
  assert (H2 : allocated scenarioC (field recordC "target"))
    by (vm_compute; eexists; reflexivity).
  assert (H3 : truthy (field recordC "target") = true) by reflexivity.
  assert (H4 : truthy (read scenarioC (field recordC "target") "query") = false)
    by reflexivity.
  destruct (migration_reads_sub_fields_from_target scenarioC 1%positive recordC H1 H2 H3 H4)
    as (h' & n & r & Hp & _ & Ht & Hr & Hs & _).
  exists h', n, r. repeat (split; [assumption|]). exact Hs.
Defined.

(** Scenario C, evaluated: the new target is
    [{ query: "", queryType: "tags", fromAnnotations: true, tagsColumn: "",
       textColumn: "", timeEndColumn: "", titleColumn: "", name: "n1",
       limit: 5, matchAny: true, tags: ["a","b"], type: "tags" }],
    [tags] being the very array of the old target. *)
Example scenarioC_output :
  ∃ h', prepareAnnotation (VRef 1) scenarioC = Ok (VRef 1, h') ∧
        target_of h' (VRef 1) = VRef 4 ∧
        h' !! 4%positive =
          Some (current_record (VStr "") (VStr "") (VStr "") (VStr "") (VStr "")
                  (VStr "n1") (VNum 5) (VBool true) (VRef 3) (VStr "tags")) ∧
        h' !! 3%positive = scenarioC !! 3%positive.
Proof. eexists. split; [reflexivity|]. repeat split; vm_compute; reflexivity. Qed.

(** ** A target that is already current *)

(** C5: when [json.target.query] is truthy, [prepareAnnotation] returns
    the record it was given and the store is the one it started from: the
    target is the same object, with the same properties, whatever they
    are. *)
Theorem truthy_query_leaves_record_unchanged (h : heap) (l : loc) (o : object) (q : value) :
  h !! l = Some o →
  peek h (field o "target") "query" = Ok q → truthy q = true →
  prepareAnnotation (VRef l) h = Ok (VRef l, h) ∧
  target_of h (VRef l) = field o "target".
Proof.
  intros Hl Hp Hq.
  assert (Ho : ∃ a, props o !! "target" = Some (VRef a) ∧ is_Some (h !! a)).
  { unfold field in Hp. destruct (props o !! "target") as [[| | b | n | | s | a]|];
      simpl in Hp; try discriminate;
      try (injection Hp as <-; discriminate).
    exists a. split; [reflexivity|]. destruct (h !! a); [by eexists|discriminate]. }
  destruct Ho as (a & Ht & Ha).
  assert (Hf : field o "target" = VRef a) by (unfold field; by rewrite Ht).
  split.
  - rewrite prepare_keeps with (o := o); try assumption.
    + rewrite Hf, (with_prop_same o "target" (VRef a) Ht).
      by rewrite insert_id.
    + by rewrite Hf.
    + unfold migrates, read. by rewrite Hp, Hq, andb_false_r.
  - unfold target_of, read, peek. by rewrite Hl.
Qed.

Lemma truthy_query_leaves_record_unchanged_witness :
  prepareAnnotation (VRef 1) scenarioB = Ok (VRef 1, scenarioB) ∧
  target_of scenarioB (VRef 1) = field recordB "target".
Proof.
  apply (truthy_query_leaves_record_unchanged scenarioB 1%positive recordB (VStr "host=$host"));
    reflexivity.
Defined.

(** ** The forced fields *)

(** C6: the record built by a migration has [queryType] "tags" and
    [fromAnnotations] true, whatever the legacy record or its old target
    hold under those names; so has the target of the record returned by
    [prepareAnnotation] whenever it migrates. *)
Theorem migration_forces_queryType_and_fromAnnotations (h : heap) (l : loc) (o : object) :
  h !! l = Some o → allocated h (field o "target") →
  (∃ n h' r, migrateLegacyAnnotation (VRef l) h = Ok (VRef n, h') ∧
             h' !! n = Some r ∧
             field r "queryType" = VStr "tags" ∧
             field r "fromAnnotations" = VBool true) ∧
  (truthy (field o "target") = true →
   truthy (read h (field o "target") "query") = false →
   ∃ h' n r, prepareAnnotation (VRef l) h = Ok (VRef l, h') ∧
             target_of h' (VRef l) = VRef n ∧ h' !! n = Some r ∧
             field r "queryType" = VStr "tags" ∧
             field r "fromAnnotations" = VBool true).
Proof.
  intros Hl Ha. split.
  - destruct (truthy (field o "target")) eqn:Ht.
    + do 3 eexists. split; [exact (migrate_truthy h l o Hl Ht Ha)|].
      split; [apply lookup_insert_eq|]. split; reflexivity.
    + do 3 eexists. split; [exact (migrate_falsy h l o Hl Ht)|].
      split; [apply lookup_insert_eq|]. split; reflexivity.
  - intros Ht Hq.
    destruct (prepare_migrates_target h l o Hl Ha Ht Hq) as (h' & n & Hp & _ & Ht' & Hr).
    exists h', n, (migrated_target h o). repeat (split; [assumption|]).
    split; reflexivity.
Qed.

Lemma migration_forces_queryType_and_fromAnnotations_witness :
  field recordE "queryType" = VStr "measurements" ∧
  field recordE "fromAnnotations" = VBool false ∧
  ∃ h' n r, prepareAnnotation (VRef 1) scenarioE = Ok (VRef 1, h') ∧
            target_of h' (VRef 1) = VRef n ∧ h' !! n = Some r ∧
            field r "queryType" = VStr "tags" ∧
            field r "fromAnnotations" = VBool true.
Proof.
  split; [reflexivity|]. split; [reflexivity|].
  assert (H1 : scenarioE !! 1%positive = Some recordE) by reflexivity.
  assert (H2 : allocated scenarioE (field recordE "target"))
    by (vm_compute; eexists; reflexivity).
  apply (migration_forces_queryType_and_fromAnnotations scenarioE 1%positive recordE H1 H2);
    reflexivity.
Defined.

(** ** What the call leaves alone *)

(** C7: [prepareAnnotation] returns the record it was given; in the store
    it leaves, that record has the class and every property it had,
    [target] apart, and every other object of the initial store is as it
    was, whether or not migration ran. *)
Theorem prepareAnnotation_frame (h : heap) (l : loc) (o : object) :
  h !! l = Some o → allocated h (field o "target") →
  ∃ h' o', prepareAnnotation (VRef l) h = Ok (VRef l, h') ∧
           h' !! l = Some o' ∧ cls o' = cls o ∧
           (∀ k, k ≠ "target" → props o' !! k = props o !! k) ∧
           (∀ l', l' ≠ l → is_Some (h !! l') → h' !! l' = h !! l').
Proof.
  intros Hl Ha. destruct (migrates h o) eqn:Hm.
  - eexists. exists (with_prop o "target" (VRef (fresh (dom h)))).
    split; [exact (prepare_migrates h l o Hl Ha Hm)|].
    split; [apply lookup_insert_eq|]. split; [reflexivity|].
    split; [intros k Hk; by apply with_prop_other|].
    intros l' Hne [o' Hl']. rewrite lookup_insert_ne by done.
    by rewrite (lookup_after_alloc h l' o' _ Hl').
  - eexists. exists (with_prop o "target" (field o "target")).
    split; [exact (prepare_keeps h l o Hl Ha Hm)|].
    split; [apply lookup_insert_eq|]. split; [reflexivity|].
    split; [intros k Hk; by apply with_prop_other|].
    intros l' Hne _. by rewrite lookup_insert_ne.
Qed.

Lemma prepareAnnotation_frame_witness :
  ∃ h' o', prepareAnnotation (VRef 1) scenarioC = Ok (VRef 1, h') ∧
           h' !! 1%positive = Some o' ∧ cls o' = cls recordC ∧
           (∀ k, k ≠ "target" → props o' !! k = props recordC !! k) ∧
           (∀ l', l' ≠ 1%positive → is_Some (scenarioC !! l') →
                  h' !! l' = scenarioC !! l').
Proof.
  assert (H1 : scenarioC !! 1%positive = Some recordC) by reflexivity.
  assert (H2 : allocated scenarioC (field recordC "target"))
    by (vm_compute; eexists; reflexivity).
  exact (prepareAnnotation_frame scenarioC 1%positive recordC H1 H2).
Defined.

(** ** Applying the call twice *)

(** A second migration of a migrated record builds a record with the same
    twelve values as the first. *)
Lemma remigration_builds_equal_record (h : heap) (l : loc) (o : object) :
  h !! l = Some o →
  let n := fresh (dom h) in
  let h1 := <[l := with_prop o "target" (VRef n)]> (<[n := migrated_target h o]> h) in
  migrated_target h1 (with_prop o "target" (VRef n)) = migrated_target h o.
Proof.
  intros Hl n h1.
  assert (Hn : h1 !! n = Some (migrated_target h o)) by by apply migrated_lookup.
  assert (Hf : ∀ k, k ≠ "target" →
               field (with_prop o "target" (VRef n)) k = field o k).
  { intros k Hk. unfold field. by rewrite with_prop_other. }
  assert (Ht : field (with_prop o "target" (VRef n)) "target" = VRef n).
  { unfold field, with_prop; simpl. by rewrite lookup_insert_eq. }
  assert (Hr : ∀ k, read h1 (VRef n) k = field (migrated_target h o) k).
  { intros k. unfold read, peek. by rewrite Hn. }
  unfold migrated_target at 1. rewrite Ht, !Hr, !Hf by done.
  reflexivity.
Qed.

(** C8: there is a record (Scenario C, whose own [query] is absent) that
    the first call migrates, leaving [target.query] = ""; on the store
    left by the first call the condition of [prepareAnnotation] holds
    again, and the second call builds another object and makes it the
    target: the state after two calls is not the state after one. *)
Theorem prepareAnnotation_not_idempotent :
  ∃ (h : heap) (json : value) (h1 h2 : heap),
    prepareAnnotation json h = Ok (json, h1) ∧
    read h1 (target_of h1 json) "query" = VStr "" ∧
    needs_migration json h1 = Ok (true, h1) ∧
    prepareAnnotation json h1 = Ok (json, h2) ∧
    target_of h2 json ≠ target_of h1 json ∧
    h2 ≠ h1.
Proof.
  set (o1 := with_prop recordC "target" (VRef 4)).
  set (h1 := <[1%positive := o1]>
               (<[4%positive := migrated_target scenarioC recordC]> scenarioC)).
  set (h2 := <[1%positive := with_prop o1 "target" (VRef 5)]>
               (<[5%positive := migrated_target h1 o1]> h1)).
  exists scenarioC, (VRef 1), h1, h2.
  assert (Hne : target_of h2 (VRef 1) ≠ target_of h1 (VRef 1)).
  { unfold h2, h1, o1. rewrite !target_of_written. discriminate. }
  repeat (split; [vm_compute; reflexivity|]).
  split; [exact Hne|]. intros E. apply Hne. by rewrite E.
Qed.

(** On that record the two targets, though different objects, hold the
    same twelve values. *)
Example scenarioC_second_target_equal_fields :
  ∃ h1 h2, prepareAnnotation (VRef 1) scenarioC = Ok (VRef 1, h1) ∧
           prepareAnnotation (VRef 1) h1 = Ok (VRef 1, h2) ∧
           target_of h1 (VRef 1) = VRef 4 ∧ target_of h2 (VRef 1) = VRef 5 ∧
           h2 !! 5%positive = h1 !! 4%positive.
Proof.
  do 2 eexists. split; [reflexivity|]. split; [reflexivity|].
  repeat split; vm_compute; reflexivity.
Qed.

(** ** Totality *)

(** Outside the domain: a record that is not an object makes the call
    throw. *)
Example prepareAnnotation_needs_an_object (h : heap) :
  prepareAnnotation VUndefined h = Throw TypeError ∧
  prepareAnnotation VNull h = Throw TypeError ∧
  prepareAnnotation (VNum 5) h = Throw TypeError.
Proof. repeat split. Qed.

Lemma migrated_missing_sub_fields (h : heap) (o : object) :
  Forall (λ k, lacks h (field o "target") k →
               props (migrated_target h o) !! k = Some VUndefined)
         sub_fields.
Proof.
  repeat constructor; intros Hk; apply (read_lacks h) in Hk;
    unfold migrated_target, current_record; simpl; rewrite Hk; reflexivity.
Qed.

(** C9, as stated, fails in its last part: the call never throws on an
    object, but missing pieces do not simply receive default values.  On
    [{}] the missing target is left undefined, and no defaulted record
    exists; on [{ target: {} }] the new target has [limit], [matchAny],
    [tags] and [type] undefined, not 0, false, an array and "". *)
Lemma missing_pieces_are_not_all_defaulted :
  (∃ h', prepareAnnotation (VRef 1) scenarioD = Ok (VRef 1, h') ∧
         target_of h' (VRef 1) = VUndefined ∧
         ¬ has_defaulted_target h' (VRef 1) recordD) ∧
  (∃ h' n r, prepareAnnotation (VRef 1) scenarioG = Ok (VRef 1, h') ∧
             target_of h' (VRef 1) = VRef n ∧ h' !! n = Some r ∧
             field r "limit" = VUndefined ∧ field r "limit" ≠ VNum 0 ∧
             field r "matchAny" = VUndefined ∧ field r "matchAny" ≠ VBool false ∧
             field r "tags" = VUndefined ∧ (∀ a, field r "tags" ≠ VRef a) ∧
             field r "type" = VUndefined ∧ field r "type" ≠ VStr "").
Proof.
  split.
  - exists (<[1%positive := with_prop recordD "target" (field recordD "target")]> scenarioD).
    split; [apply prepare_keeps; [reflexivity | vm_compute; exact I | reflexivity]|].
    assert (Ht : target_of (<[1%positive := with_prop recordD "target" (field recordD "target")]> scenarioD) (VRef 1) = VUndefined)
      by apply target_of_written.
    split; [exact Ht|].
    intros (n & a & Hn & _). rewrite Ht in Hn. discriminate.
  - exists (<[1%positive := with_prop recordG "target" (VRef 3)]>
              (<[3%positive := migrated_target scenarioG recordG]> scenarioG)),
           3%positive, (migrated_target scenarioG recordG).
    split; [vm_compute; reflexivity|].
    split; [apply target_of_written|].
    split; [vm_compute; reflexivity|].
    repeat split; try reflexivity; try discriminate.
Qed.

(** C9, amended: on every record that is an object, whatever its
    properties hold (a target that is absent, null, a string or a number,
    sub-fields of any kind), [prepareAnnotation] throws nothing and
    returns that record, which is still in the store.  Missing pieces are
    defaulted in part only.  When migration runs (target truthy, its
    query falsy), each flat field the record lacks is "" in the new
    target, and each of [limit], [matchAny], [tags], [type] that the old
    target lacks is undefined there.  When migration does not run,
    nothing is built and nothing is defaulted: the target, absent or null
    included, is the value it was and every read of the store gives what
    it gave before. *)
Theorem prepareAnnotation_total (h : heap) (l : loc) (o : object) :
  h !! l = Some o → allocated h (field o "target") →
  let t := field o "target" in
  ∃ h', prepareAnnotation (VRef l) h = Ok (VRef l, h') ∧
        is_Some (h' !! l) ∧
        (truthy t = true ∧ truthy (read h t "query") = false →
         ∃ n r, h !! n = None ∧ target_of h' (VRef l) = VRef n ∧
                h' !! n = Some r ∧
                Forall (λ k, props o !! k = None → field r k = VStr "")
                       flat_fields ∧
                Forall (λ k, lacks h t k → props r !! k = Some VUndefined)
                       sub_fields) ∧
        (¬ (truthy t = true ∧ truthy (read h t "query") = false) →
         target_of h' (VRef l) = t ∧ dom h' = dom h ∧
         ∀ v k, read h' v k = read h v k).
Proof.
  intros Hl Ha t. destruct (migrates h o) eqn:Hm.
  - pose proof Hm as Hm'. apply migrates_true_iff in Hm' as [Ht Hq].
    destruct (prepare_migrates_target h l o Hl Ha Ht Hq)
      as (h' & n & Hp & Hn & Ht' & Hr).
    exists h'. split; [exact Hp|]. split.
    { rewrite (prepare_migrates h l o Hl Ha Hm) in Hp. injection Hp as <-.
      rewrite lookup_insert_eq. by eexists. }
    split; [|intros Hno; destruct Hno; by split].
    intros _. exists n, (migrated_target h o). repeat (split; [assumption|]).
    split; [|apply migrated_missing_sub_fields].
    eapply Forall_impl; [apply migrated_flat_fields|].
    intros k Hk Hnone; simpl in Hk. rewrite Hk. by apply coalesce_absent.
  - destruct (prepare_keeps_target h l o Hl Ha Hm) as (h' & Hp & Hs & Ht' & Hd & Hr).
    exists h'. split; [exact Hp|]. split; [exact Hs|]. split.
    + intros Hyes. apply migrates_true_iff in Hyes. congruence.
    + intros _. repeat (split; [assumption|]). exact Hr.
Qed.

Lemma prepareAnnotation_total_witness :
  ∃ h' n r, prepareAnnotation (VRef 1) scenarioF = Ok (VRef 1, h') ∧
            is_Some (h' !! 1%positive) ∧
            target_of h' (VRef 1) = VRef n ∧ h' !! n = Some r ∧
            Forall (λ k, props recordF !! k = None → field r k = VStr "")
                   flat_fields ∧
            Forall (λ k, lacks scenarioF (VStr "legacy") k →
                         props r !! k = Some VUndefined)
                   sub_fields.
Proof.
  assert (H1 : scenarioF !! 1%positive = Some recordF) by reflexivity.
  assert (H2 : allocated scenarioF (field recordF "target"))
    by (vm_compute; exact I).
  destruct (prepareAnnotation_total scenarioF 1%positive recordF H1 H2)
    as (h' & Hp & Hs & Hyes & _).
  destruct Hyes as (n & r & _ & Ht & Hr & Hf & Hsub); [split; reflexivity|].
  exists h', n, r. repeat (split; [assumption|]). exact Hsub.
Defined.

(** ** Sub-fields the target does not have *)

(** C10: the four sub-fields are defaulted on the truthiness of the target
    as a whole.  When the target is truthy and its query falsy, migration
    runs, and for each of [limit], [matchAny], [tags], [type] that the
    target does not have (it is a string, a number, a boolean, or an
    object without it), the new target owns the property with the value
    undefined, not 0, false, [[]] or "". *)
Theorem missing_sub_fields_are_undefined (h : heap) (l : loc) (o : object) :
  h !! l = Some o → allocated h (field o "target") →
  truthy (field o "target") = true →
  truthy (read h (field o "target") "query") = false →
  ∃ h' n r, prepareAnnotation (VRef l) h = Ok (VRef l, h') ∧
            h !! n = None ∧ target_of h' (VRef l) = VRef n ∧
            h' !! n = Some r ∧
            Forall (λ k, lacks h (field o "target") k →
                         props r !! k = Some VUndefined)
                   sub_fields.
Proof.
  intros Hl Ha Ht Hq.
  destruct (prepare_migrates_target h l o Hl Ha Ht Hq) as (h' & n & Hp & Hn & Ht' & Hr).
  exists h', n, (migrated_target h o). repeat (split; [assumption|]).
  repeat constructor; intros Hk; apply (read_lacks h) in Hk;
    unfold migrated_target, current_record; simpl; rewrite Hk; reflexivity.
Qed.

Lemma missing_sub_fields_are_undefined_witness :
  lacks scenarioE (field recordE "target") "limit" ∧
  ∃ h' n r, prepareAnnotation (VRef 1) scenarioE = Ok (VRef 1, h') ∧
            target_of h' (VRef 1) = VRef n ∧ h' !! n = Some r ∧
            props r !! "limit" = Some VUndefined.
Proof.
  assert (H0 : lacks scenarioE (field recordE "target") "limit")
    by (vm_compute; eexists; split; reflexivity).
  split; [exact H0|].
  assert (H1 : scenarioE !! 1%positive = Some recordE) by reflexivity.
  assert (H2 : allocated scenarioE (field recordE "target"))
    by (vm_compute; eexists; reflexivity).
  assert (H3 : truthy (field recordE "target") = true) by reflexivity.
  assert (H4 : truthy (read scenarioE (field recordE "target") "query") = false)
    by reflexivity.
  destruct (missing_sub_fields_are_undefined scenarioE 1%positive recordE H1 H2 H3 H4)
    as (h' & n & r & Hp & _ & Ht & Hr & Hs).
  exists h', n, r. repeat (split; [assumption|]).
  apply Forall_cons in Hs as [Hs _]. exact (Hs H0).
Defined.

(** A truthy target that is no object ([{ target: "legacy" }]) is migrated
    too, and all four sub-fields come out undefined. *)
Example scenarioF_output :
  ∃ h', prepareAnnotation (VRef 1) scenarioF = Ok (VRef 1, h') ∧
        target_of h' (VRef 1) = VRef 2 ∧
        h' !! 2%positive =
          Some (current_record (VStr "") (VStr "") (VStr "") (VStr "") (VStr "")
                  (VStr "") VUndefined VUndefined VUndefined VUndefined).
Proof. eexists. split; [reflexivity|]. split; vm_compute; reflexivity. Qed.

(** ** Further properties of migrations.ts *)

Lemma allocated_mono (h h' : heap) (v : value) :
  (∀ l, is_Some (h !! l) → is_Some (h' !! l)) → allocated h v → allocated h' v.
Proof. intros Hsub. destruct v; simpl; auto. Qed.

Lemma is_Some_after_alloc (h : heap) (n l : loc) (r : object) :
  is_Some (h !! l) → is_Some (<[n := r]> h !! l).
Proof.
  intros Hl. destruct (decide (n = l)) as [->|Hne].
  - rewrite lookup_insert_eq. by eexists.
  - by rewrite lookup_insert_ne.
Qed.

(** Writing [target] on the record changes no read of another property,
    through any value. *)
Lemma read_with_target (h : heap) (l : loc) (o : object) (x v : value) (k : string) :
  h !! l = Some o → k ≠ "target" →
  read (<[l := with_prop o "target" x]> h) v k = read h v k.
Proof.
  intros Hl Hk. unfold read, peek. destruct v as [| | | | | |a]; try reflexivity.
  destruct (decide (l = a)) as [->|Hne].
  - rewrite lookup_insert_eq, Hl. unfold field. by rewrite with_prop_other.
  - by rewrite lookup_insert_ne.
Qed.

(** A new object changes no read through a value of the old store. *)
Lemma read_after_alloc (h : heap) (n : loc) (r : object) (v : value) (k : string) :
  h !! n = None → allocated h v → read (<[n := r]> h) v k = read h v k.
Proof.
  intros Hn Ha. unfold read, peek. destruct v as [| | | | | |a]; try reflexivity.
  destruct Ha as [oa Ha]. rewrite lookup_insert_ne; [done|].
  intros ->. congruence.
Qed.

(** X1: [migrateLegacyAnnotation] writes to no object it was given.  On
    every record it returns a reference to an object that was not in the
    store, and every object of the store, the record and its old target
    among them, is afterwards what it was. *)
Theorem migrateLegacyAnnotation_builds_new_object (h : heap) (l : loc) (o : object) :
  h !! l = Some o → allocated h (field o "target") →
  ∃ n h', migrateLegacyAnnotation (VRef l) h = Ok (VRef n, h') ∧
          h !! n = None ∧ is_Some (h' !! n) ∧
          ∀ l' o', h !! l' = Some o' → h' !! l' = Some o'.
Proof.
  intros Hl Ha. destruct (truthy (field o "target")) eqn:Ht.
  - do 2 eexists. split; [exact (migrate_truthy h l o Hl Ht Ha)|].
    split; [apply fresh_not_allocated|].
    split; [rewrite lookup_insert_eq; by eexists|].
    intros l' o' Hl'. by apply lookup_after_alloc.
  - pose proof (migrate_falsy h l o Hl Ht) as Hm. simpl in Hm.
    set (a := fresh (dom h)) in *.
    set (h1 := <[a := empty_array]> h) in *.
    do 2 eexists. split; [exact Hm|].
    assert (Hfn : h1 !! fresh (dom h1) = None) by apply fresh_not_allocated.
    split; [|split; [rewrite lookup_insert_eq; by eexists|]].
    + destruct (decide (a = fresh (dom h1))) as [E|Hne].
      * rewrite <- E in Hfn. unfold h1 in Hfn.
        rewrite lookup_insert_eq in Hfn. discriminate.
      * unfold h1 in Hfn. by rewrite lookup_insert_ne in Hfn.
    + intros l' o' Hl'. apply lookup_after_alloc. by apply lookup_after_alloc.
Qed.

Lemma migrateLegacyAnnotation_builds_new_object_witness :
  ∃ n h', migrateLegacyAnnotation (VRef 1) scenarioA = Ok (VRef n, h') ∧
          scenarioA !! n = None ∧ is_Some (h' !! n) ∧
          ∀ l' o', scenarioA !! l' = Some o' → h' !! l' = Some o'.
Proof.
  assert (H1 : scenarioA !! 1%positive = Some recordA) by reflexivity.
  assert (H2 : allocated scenarioA (field recordA "target"))
    by (vm_compute; exact I).
  exact (migrateLegacyAnnotation_builds_new_object scenarioA 1%positive recordA H1 H2).
Defined.

(** X2: [prepareAnnotation] adds at most one object to the store and
    removes none: either the store holds the same locations as before, or
    exactly one more, and that one is a plain object, not an array (the
    [[]] of [migrateLegacyAnnotation] is never evaluated on this path). *)
Theorem prepareAnnotation_allocates_at_most_one_object (h : heap) (l : loc) (o : object) :
  h !! l = Some o → allocated h (field o "target") →
  ∃ h', prepareAnnotation (VRef l) h = Ok (VRef l, h') ∧
        (dom h' = dom h ∨
         ∃ n r, h !! n = None ∧ h' !! n = Some r ∧ cls r = ClassObject ∧
                dom h' = {[n]} ∪ dom h).
Proof.
  intros Hl Ha. destruct (migrates h o) eqn:Hm.
  - eexists. split; [exact (prepare_migrates h l o Hl Ha Hm)|].
    right. exists (fresh (dom h)), (migrated_target h o).
    split; [apply fresh_not_allocated|].
    split; [by apply migrated_lookup|]. split; [reflexivity|].
    rewrite dom_insert_lookup_L; [apply dom_insert_L|].
    exists o. by apply lookup_after_alloc.
  - eexists. split; [exact (prepare_keeps h l o Hl Ha Hm)|].
    left. apply dom_insert_lookup_L. by exists o.
Qed.

Lemma prepareAnnotation_allocates_at_most_one_object_witness :
  ∃ h', prepareAnnotation (VRef 1) scenarioC = Ok (VRef 1, h') ∧
        (dom h' = dom scenarioC ∨
         ∃ n r, scenarioC !! n = None ∧ h' !! n = Some r ∧ cls r = ClassObject ∧
                dom h' = {[n]} ∪ dom scenarioC).
Proof.
  assert (H1 : scenarioC !! 1%positive = Some recordC) by reflexivity.
  assert (H2 : allocated scenarioC (field recordC "target"))
    by (vm_compute; eexists; reflexivity).
  exact (prepareAnnotation_allocates_at_most_one_object scenarioC 1%positive recordC H1 H2).
Defined.

(** X3: [prepareAnnotation] throws a TypeError on every input that is not
    an object: on undefined and null when [json.target] is read, on a
    boolean, a number or a string when [json.target] is assigned. *)
Theorem prepareAnnotation_throws_on_non_object (json : value) (h : heap) :
  is_object json = false → prepareAnnotation json h = Throw TypeError.
Proof. destruct json; simpl; intros E; try discriminate; reflexivity. Qed.

Lemma prepareAnnotation_throws_on_non_object_witness :
  prepareAnnotation (VStr "annotation") scenarioA = Throw TypeError.
Proof.
  apply (prepareAnnotation_throws_on_non_object (VStr "annotation") scenarioA).
  reflexivity.
Defined.

(** X4: a second call on the record the first call returned either
    leaves the store as the first call left it, or makes [target] another
    new object with exactly the properties of the target the first call
    left: calling twice differs from calling once in the identity of the
    target at most. *)
Theorem second_call_keeps_target_properties (h : heap) (l : loc) (o : object) :
  h !! l = Some o → allocated h (field o "target") →
  ∃ h1 h2, prepareAnnotation (VRef l) h = Ok (VRef l, h1) ∧
           prepareAnnotation (VRef l) h1 = Ok (VRef l, h2) ∧
           (h2 = h1 ∨
            ∃ n1 n2 r, n1 ≠ n2 ∧
                       target_of h1 (VRef l) = VRef n1 ∧
                       target_of h2 (VRef l) = VRef n2 ∧
                       h1 !! n1 = Some r ∧ h2 !! n2 = Some r ∧
                       h1 !! n2 = None).
Proof.
  intros Hl Ha.
  assert (Hsame : ∀ (h1 : heap) (o1 : object) (x : value),
             h1 !! l = Some o1 → props o1 !! "target" = Some x →
             <[l := with_prop o1 "target" x]> h1 = h1).
  { intros h1 o1 x H1 Hx. rewrite (with_prop_same o1 "target" x Hx).
    by apply insert_id. }
  destruct (migrates h o) eqn:Hm.
  - set (n := fresh (dom h)).
    set (o1 := with_prop o "target" (VRef n)).
    set (h1 := <[l := o1]> (<[n := migrated_target h o]> h)).
    assert (H1 : h1 !! l = Some o1) by apply lookup_insert_eq.
    assert (Hn : h1 !! n = Some (migrated_target h o)) by by apply migrated_lookup.
    assert (Ht1 : props o1 !! "target" = Some (VRef n)) by apply lookup_insert_eq.
    assert (Hf1 : field o1 "target" = VRef n) by (unfold field; by rewrite Ht1).
    assert (Ha1 : allocated h1 (field o1 "target")) by (rewrite Hf1; by eexists).
    exists h1. destruct (migrates h1 o1) eqn:Hm1.
    + eexists. split; [exact (prepare_migrates h l o Hl Ha Hm)|].
      split; [exact (prepare_migrates h1 l o1 H1 Ha1 Hm1)|].
      right. exists n, (fresh (dom h1)), (migrated_target h o).
      split; [by apply (allocated_ne_fresh h1 n (migrated_target h o))|].
      split; [apply target_of_written|]. split; [apply target_of_written|].
      split; [exact Hn|]. split; [|apply fresh_not_allocated].
      rewrite (migrated_lookup h1 l o1 H1). f_equal.
      exact (remigration_builds_equal_record h l o Hl).
    + exists h1. split; [exact (prepare_migrates h l o Hl Ha Hm)|].
      split; [|by left].
      rewrite (prepare_keeps h1 l o1 H1 Ha1 Hm1), Hf1.
      by rewrite (Hsame h1 o1 (VRef n) H1 Ht1).
  - set (t := field o "target") in *.
    set (o1 := with_prop o "target" t).
    set (h1 := <[l := o1]> h).
    assert (H1 : h1 !! l = Some o1) by apply lookup_insert_eq.
    assert (Ht1 : props o1 !! "target" = Some t) by apply lookup_insert_eq.
    assert (Hf1 : field o1 "target" = t) by (unfold field; by rewrite Ht1).
    assert (Ha1 : allocated h1 (field o1 "target")).
    { rewrite Hf1. eapply allocated_mono; [|exact Ha].
      intros l'. apply is_Some_after_alloc. }
    assert (Hm1 : migrates h1 o1 = false).
    { unfold migrates. rewrite Hf1. unfold h1, o1.
      rewrite (read_with_target h l o t t "query" Hl) by done. exact Hm. }
    exists h1, h1. split; [exact (prepare_keeps h l o Hl Ha Hm)|].
    split; [|by left].
    rewrite (prepare_keeps h1 l o1 H1 Ha1 Hm1), Hf1.
    by rewrite (Hsame h1 o1 t H1 Ht1).
Qed.

Lemma second_call_keeps_target_properties_witness :
  ∃ h1 h2, prepareAnnotation (VRef 1) scenarioC = Ok (VRef 1, h1) ∧
           prepareAnnotation (VRef 1) h1 = Ok (VRef 1, h2) ∧
           (h2 = h1 ∨
            ∃ n1 n2 r, n1 ≠ n2 ∧
                       target_of h1 (VRef 1) = VRef n1 ∧
                       target_of h2 (VRef 1) = VRef n2 ∧
                       h1 !! n1 = Some r ∧ h2 !! n2 = Some r ∧
                       h1 !! n2 = None).
Proof.
  assert (H1 : scenarioC !! 1%positive = Some recordC) by reflexivity.
  assert (H2 : allocated scenarioC (field recordC "target"))
    by (vm_compute; eexists; reflexivity).
  exact (second_call_keeps_target_properties scenarioC 1%positive recordC H1 H2).
Defined.

(** X5: the call leaves the store exactly as it found it if and only if
    the record owns a [target] property and migration does not run (the
    target is falsy or its query truthy). *)
Theorem store_unchanged_iff_own_target_kept (h : heap) (l : loc) (o : object) :
  h !! l = Some o → allocated h (field o "target") →
  ∃ h', prepareAnnotation (VRef l) h = Ok (VRef l, h') ∧
        (h' = h ↔
         is_Some (props o !! "target") ∧
         ¬ (truthy (field o "target") = true ∧
            truthy (read h (field o "target") "query") = false)).
Proof.
  intros Hl Ha. destruct (migrates h o) eqn:Hm.
  - eexists. split; [exact (prepare_migrates h l o Hl Ha Hm)|].
    unfold migrates in Hm. apply andb_prop in Hm as [Ht Hq].
    apply negb_true_iff in Hq. split.
    + intros E. pose proof (migrated_lookup h l o Hl) as Hn; simpl in Hn.
      rewrite E, fresh_not_allocated in Hn. discriminate.
    + intros [_ Hno]. destruct Hno. by split.
  - eexists. split; [exact (prepare_keeps h l o Hl Ha Hm)|]. split.
    + intros E. split.
      * assert (Ho : with_prop o "target" (field o "target") = o).
        { apply (f_equal (λ m : heap, m !! l)) in E.
          rewrite lookup_insert_eq, Hl in E. by injection E. }
        apply (f_equal (λ x, props x !! "target")) in Ho.
        unfold with_prop in Ho; simpl in Ho. rewrite lookup_insert_eq in Ho.
        rewrite <- Ho. by eexists.
      * intros [Ht Hq]. unfold migrates in Hm. rewrite Ht, Hq in Hm. discriminate.
    + intros [[x Hx] _].
      assert (Hf : field o "target" = x) by (unfold field; by rewrite Hx).
      rewrite Hf, (with_prop_same o "target" x Hx). by apply insert_id.
Qed.

Lemma store_unchanged_iff_own_target_kept_witness :
  ∃ h', prepareAnnotation (VRef 1) scenarioN = Ok (VRef 1, h') ∧
        (h' = scenarioN ↔
         is_Some (props recordN !! "target") ∧
         ¬ (truthy (field recordN "target") = true ∧
            truthy (read scenarioN (field recordN "target") "query") = false)).
Proof.
  assert (H1 : scenarioN !! 1%positive = Some recordN) by reflexivity.
  assert (H2 : allocated scenarioN (field recordN "target"))
    by (vm_compute; exact I).
  exact (store_unchanged_iff_own_target_kept scenarioN 1%positive recordN H1 H2).
Defined.

(** X6: on a record that has no [target] property the call creates one:
    afterwards the record owns [target], with the value undefined, next to
    the properties it had, and nothing else in the store has changed. *)
Theorem absent_target_becomes_own_property (h : heap) (l : loc) (o : object) :
  h !! l = Some o → props o !! "target" = None →
  ∃ h' o', prepareAnnotation (VRef l) h = Ok (VRef l, h') ∧
           h' !! l = Some o' ∧
           props o' !! "target" = Some VUndefined ∧
           dom (props o') = {["target"]} ∪ dom (props o) ∧
           ("target" ∉ dom (props o)) ∧
           (∀ k, k ≠ "target" → props o' !! k = props o !! k) ∧
           (∀ l', l' ≠ l → h' !! l' = h !! l').
Proof.
  intros Hl Hnone.
  assert (Hf : field o "target" = VUndefined) by (unfold field; by rewrite Hnone).
  assert (Ha : allocated h (field o "target")) by (rewrite Hf; exact I).
  assert (Hm : migrates h o = false) by (unfold migrates; by rewrite Hf).
  pose proof (prepare_keeps h l o Hl Ha Hm) as Hp. rewrite Hf in Hp.
  exists (<[l := with_prop o "target" VUndefined]> h), (with_prop o "target" VUndefined).
  split; [exact Hp|].
  split; [apply lookup_insert_eq|]. split; [apply lookup_insert_eq|].
  split; [apply dom_insert_L|]. split; [by apply not_elem_of_dom|].
  split; [intros k Hk; by apply with_prop_other|].
  intros l' Hne. by rewrite lookup_insert_ne.
Qed.

Lemma absent_target_becomes_own_property_witness :
  ∃ h' o', prepareAnnotation (VRef 1) scenarioA = Ok (VRef 1, h') ∧
           h' !! 1%positive = Some o' ∧
           props o' !! "target" = Some VUndefined ∧
           "target" ∉ dom (props recordA).
Proof.
  assert (H1 : scenarioA !! 1%positive = Some recordA) by reflexivity.
  assert (H2 : props recordA !! "target" = None) by reflexivity.
  destruct (absent_target_becomes_own_property scenarioA 1%positive recordA H1 H2)
    as (h' & o' & Hp & Ho & Ht & _ & Hd & _).
  exists h', o'. repeat (split; [assumption|]). exact Hd.
Defined.

(** ** The store stays well formed *)

Lemma closed_field (h : heap) (l : loc) (o : object) (k : string) :
  closed h → h !! l = Some o → allocated h (field o k).
Proof.
  intros Hc Hl. unfold field.
  destruct (props o !! k) as [v|] eqn:Hk; simpl; [|exact I].
  exact (Hc l o Hl k v Hk).
Qed.

Lemma closed_read (h : heap) (v : value) (k : string) :
  closed h → allocated h (read h v k).
Proof.
  intros Hc. unfold read, peek. destruct v as [| | | | | |a]; try exact I.
  destruct (h !! a) as [oa|] eqn:Ha; [|exact I].
  by apply (closed_field h a oa k).
Qed.

Lemma coalesce_allocated (h : heap) (v : value) :
  allocated h v → allocated h (coalesce v (VStr "")).
Proof. destruct v; simpl; auto. Qed.

Lemma migrated_target_closed (h : heap) (l : loc) (o : object) :
  closed h → h !! l = Some o →
  map_Forall (λ _ v, allocated h v) (props (migrated_target h o)).
Proof.
  intros Hc Hl. unfold migrated_target, current_record. simpl.
  repeat (apply map_Forall_insert_2;
          [first [ apply coalesce_allocated, (closed_field h l o _ Hc Hl)
                 | apply (closed_read h _ _ Hc)
                 | exact I ]|]).
  apply map_Forall_empty.
Qed.

(** X7: [prepareAnnotation] keeps the store well formed: if every
    reference held in the store points into it before the call, the call
    succeeds and the same holds after it; neither the rewritten record
    nor the new target holds a reference to nothing. *)
Theorem prepareAnnotation_preserves_closed (h : heap) (l : loc) (o : object) :
  h !! l = Some o → closed h →
  ∃ h', prepareAnnotation (VRef l) h = Ok (VRef l, h') ∧ closed h'.
Proof.
  intros Hl Hc.
  assert (Ha : allocated h (field o "target")) by by apply (closed_field h l o).
  assert (Hrec : ∀ (h' : heap) (x : value),
             (∀ a, is_Some (h !! a) → is_Some (h' !! a)) → allocated h' x →
             map_Forall (λ _ v, allocated h' v) (props (with_prop o "target" x))).
  { intros h' x Hsub Hx k v Hk. unfold with_prop in Hk; simpl in Hk.
    destruct (decide ("target" = k)) as [<-|Hne].
    - rewrite lookup_insert_eq in Hk. by injection Hk as <-.
    - rewrite lookup_insert_ne in Hk by done.
      eapply allocated_mono; [exact Hsub|]. exact (Hc l o Hl k v Hk). }
  destruct (migrates h o) eqn:Hm.
  - eexists. split; [exact (prepare_migrates h l o Hl Ha Hm)|].
    set (n := fresh (dom h)).
    set (h' := <[l := with_prop o "target" (VRef n)]> (<[n := migrated_target h o]> h)).
    assert (Hsub : ∀ a, is_Some (h !! a) → is_Some (h' !! a)).
    { intros a Hs. by do 2 apply is_Some_after_alloc. }
    assert (Hn : h' !! n = Some (migrated_target h o)) by by apply migrated_lookup.
    intros l' o' Hl'. destruct (decide (l = l')) as [<-|Hne].
    + unfold h' in Hl'. rewrite lookup_insert_eq in Hl'. injection Hl' as <-.
      apply Hrec; [exact Hsub|]. by eexists.
    + unfold h' in Hl'. rewrite lookup_insert_ne in Hl' by done.
      destruct (decide (n = l')) as [<-|Hne'].
      * rewrite lookup_insert_eq in Hl'. injection Hl' as <-.
        intros k v Hk. eapply allocated_mono; [exact Hsub|].
        exact (migrated_target_closed h l o Hc Hl k v Hk).
      * rewrite lookup_insert_ne in Hl' by done.
        intros k v Hk. eapply allocated_mono; [exact Hsub|].
        exact (Hc l' o' Hl' k v Hk).
  - eexists. split; [exact (prepare_keeps h l o Hl Ha Hm)|].
    set (h' := <[l := with_prop o "target" (field o "target")]> h).
    assert (Hsub : ∀ a, is_Some (h !! a) → is_Some (h' !! a)).
    { intros a Hs. by apply is_Some_after_alloc. }
    intros l' o' Hl'. destruct (decide (l = l')) as [<-|Hne].
    + unfold h' in Hl'. rewrite lookup_insert_eq in Hl'. injection Hl' as <-.
      apply Hrec; [exact Hsub|]. by eapply allocated_mono.
    + unfold h' in Hl'. rewrite lookup_insert_ne in Hl' by done.
      intros k v Hk. eapply allocated_mono; [exact Hsub|].
      exact (Hc l' o' Hl' k v Hk).
Qed.

Lemma prepareAnnotation_preserves_closed_witness :
  ∃ h', prepareAnnotation (VRef 1) scenarioC = Ok (VRef 1, h') ∧ closed h'.
Proof.
  assert (H1 : scenarioC !! 1%positive = Some recordC) by reflexivity.
  assert (H2 : closed scenarioC) by (apply (bool_decide_unpack _); vm_compute; exact I).
  exact (prepareAnnotation_preserves_closed scenarioC 1%positive recordC H1 H2).
Defined.

(** ** DrilldownSettings.tsx: the handlers and what is rendered *)

Lemma handle_hierarchy (name : value) (e : event) (s : settings) :
  hierarchy (handle name e s) =
  (hierarchy s ++ (if decide (e = New) then [obj [("name", name)]] else []))%list.
Proof. destruct e; simpl; by rewrite ?app_nil_r. Qed.

Lemma handle_in_range (name : value) (e : event) (s : settings) :
  editIdx_in_range s →
  match e with
  | Edit idx => (0 ≤ idx < Z.of_nat (length (hierarchy s)))%Z
  | _ => True
  end →
  editIdx_in_range (handle name e s).
Proof.
  intros Hs He. destruct e as [| |idx]; unfold editIdx_in_range; simpl.
  - rewrite length_app; simpl. lia.
  - exact I.
  - exact He.
Qed.

Lemma news_cons (e : event) (es : list event) :
  news (e :: es) = ((if decide (e = New) then 1 else 0) + news es)%nat.
Proof.
  unfold news. destruct (decide (e = New)) as [He|He].
  - by rewrite filter_cons_True.
  - by rewrite filter_cons_False.
Qed.

(** X8: as long as [onEdit] is only called with the index of an entry of
    the list, any sequence of [onNew], [onGoBack] and [onEdit] calls
    keeps [editIdx] null or the index of an entry; the list only grows,
    at its end and by one entry per [onNew]; and the edit view, when it is
    rendered, is given the index of an entry of the list it is given. *)
Theorem editIdx_stays_in_range (name : value) (es : list event) (s : settings) :
  editIdx_in_range s → edits_in_range name es s →
  editIdx_in_range (run name es s) ∧
  hierarchy s `prefix_of` hierarchy (run name es s) ∧
  length (hierarchy (run name es s)) = (length (hierarchy s) + news es)%nat ∧
  ∀ d i, DrilldownSettingsEdit d i ∈ DrilldownSettings (run name es s) →
         ∃ j, i = Some j ∧ (0 ≤ j)%Z ∧ is_Some (d !! Z.to_nat j).
Proof.
  intros Hs He.
  assert (Hinv : editIdx_in_range (run name es s) ∧
                 hierarchy s `prefix_of` hierarchy (run name es s) ∧
                 length (hierarchy (run name es s)) = (length (hierarchy s) + news es)%nat).
  { revert s Hs He. induction es as [|e es IH]; intros s Hs He.
    - simpl. split; [exact Hs|]. split; [done|]. unfold news; simpl. lia.
    - destruct He as [He Hes]. simpl.
      destruct (IH (handle name e s) (handle_in_range name e s Hs He) Hes)
        as (Hr & Hp & Hlen).
      split; [exact Hr|]. split.
      + etransitivity; [|exact Hp]. rewrite handle_hierarchy. by apply prefix_app_r.
      + unfold run in Hlen |- *. rewrite Hlen, handle_hierarchy, length_app, news_cons.
        destruct (decide (e = New)); simpl; lia. }
  destruct Hinv as (Hr & Hp & Hlen). repeat (split; [assumption|]).
  intros d i Hin. unfold DrilldownSettings, isEditing, editIdx_in_range in *.
  destruct (editIdx (run name es s)) as [j|]; simpl in Hin.
  - apply elem_of_cons in Hin as [Hin|Hin]; [discriminate|].
    apply list_elem_of_singleton in Hin. injection Hin as -> ->.
    exists j. split; [reflexivity|]. split; [lia|].
    apply lookup_lt_is_Some. lia.
  - apply elem_of_cons in Hin as [Hin|Hin]; [discriminate|].
    apply list_elem_of_singleton in Hin. discriminate.
Qed.

Lemma editIdx_stays_in_range_witness :
  editIdx_in_range (run (VStr "New dimension") [New; GoBack; New; Edit 0; GoBack; Edit 1] (mount [])) ∧
  length (hierarchy (run (VStr "New dimension") [New; GoBack; New; Edit 0; GoBack; Edit 1] (mount [])))
  = (length (hierarchy (mount [])) + news [New; GoBack; New; Edit 0; GoBack; Edit 1])%nat.
Proof.
  assert (H1 : editIdx_in_range (mount [])) by exact I.
  assert (H2 : edits_in_range (VStr "New dimension")
                 [New; GoBack; New; Edit 0; GoBack; Edit 1] (mount []))
    by (simpl; repeat split; lia).
  destruct (editIdx_stays_in_range (VStr "New dimension")
              [New; GoBack; New; Edit 0; GoBack; Edit 1] (mount []) H1 H2)
    as (Hr & _ & Hlen & _).
  split; assumption.
Defined.

(** [onEdit] itself checks nothing: any number becomes the index of the
    edit view. *)
Example onEdit_does_not_check_the_index (idx : Z) (s : settings) :
  DrilldownSettings (onEdit idx s) =
  [DashboardSettingsHeader "Drilldown settings" true;
   DrilldownSettingsEdit (hierarchy s) (Some idx)].
Proof. reflexivity. Qed.

(** X9: [onNew] appends one dimension, named [newDimensionName], after
    the entries the list had, which keep their indices, and opens the edit
    view on that new entry; [onGoBack] after it shows the list view with
    the new dimension still in the list. *)
Theorem onNew_opens_the_new_dimension (name : value) (s : settings) :
  let s' := onNew name s in
  let i := Z.of_nat (length (hierarchy s)) in
  editIdx s' = Some i ∧
  hierarchy s' !! Z.to_nat i = Some (obj [("name", name)]) ∧
  length (hierarchy s') = S (length (hierarchy s)) ∧
  (∀ j d, hierarchy s !! j = Some d → hierarchy s' !! j = Some d) ∧
  DrilldownSettings s' =
    [DashboardSettingsHeader "Drilldown settings" true;
     DrilldownSettingsEdit (hierarchy s') (Some i)] ∧
  DrilldownSettings (onGoBack s') =
    [DashboardSettingsHeader "Drilldown settings" false;
     DrilldownSettingsList (hierarchy s')].
Proof.
  intros s' i.
  assert (Hi : editIdx s' = Some i).
  { unfold s', i, onNew; simpl. f_equal. rewrite length_app; simpl. lia. }
  split; [exact Hi|]. split.
  { unfold s', i, onNew; simpl. rewrite Nat2Z.id.
    rewrite lookup_app_r by lia. by rewrite Nat.sub_diag. }
  split; [unfold s', onNew; simpl; rewrite length_app; simpl; lia|].
  split.
  { intros j d Hj. unfold s', onNew; simpl. by apply lookup_app_l_Some. }
  split; [|reflexivity].
  unfold DrilldownSettings, isEditing. rewrite Hi. reflexivity.
Qed.
